(** * bonzai-burn: the stop hook [hello.py]

    The repository is one Python script.  It binds a list of issue
    strings, and when the list is truthy it builds a response dictionary,
    prints it with [json.dumps] and leaves with [sys.exit(2)]; otherwise it
    leaves with [sys.exit(0)].

    The development embeds the script statement by statement in a small
    state-and-exception monad over the interpreter's process state (module
    globals, standard output, standard error), together with the parts of
    the Python runtime the script calls: [str.join], the f-string, list
    truthiness, [print], [sys.exit] and [json.dumps] with its default
    arguments ([ensure_ascii=True], separators [", "] and [": "]).

    What a caller of the hook finds on standard output is stated through
    [Reader.loads], the decoding of [json.loads] for the objects the
    script can print: the printed line is read back as text, character by
    character, and not through the encoder that wrote it. *)

From Stdlib Require Import List NArith ZArith String Ascii Bool Lia.
Import ListNotations.

Local Open Scope N_scope.

(** ** Python strings *)

(** A Python [str] is a sequence of Unicode code points. *)
Definition pystr := list N.

(** An ASCII literal of the source, as a [str]. *)
Definition lit (s : string) : pystr :=
  map N_of_ascii (list_ascii_of_string s).

Definition NEWLINE : N := 10.
Definition QUOTE : N := 34.
Definition BACKSLASH : N := 92.

(** [sep.join(xs)] *)
Fixpoint join (sep : pystr) (xs : list pystr) : pystr :=
  match xs with
  | [] => []
  | [x] => x
  | x :: rest => x ++ sep ++ join sep rest
  end.

(** [bool(xs)] for a list: a list is truthy exactly when it is not empty. *)
Definition truthy {A : Type} (xs : list A) : bool :=
  match xs with
  | [] => false
  | _ :: _ => true
  end.

(** ** Python values the script handles *)

#[warnings="-register-all"]
Inductive pyval : Type :=
| PyBool (b : bool)
| PyStr (s : pystr)
| PyList (xs : list pyval)
| PyDict (items : list (pystr * pyval)).

(** [d[k]] on a dictionary kept in insertion order. *)
Fixpoint dict_get (items : list (pystr * pyval)) (k : pystr) : option pyval :=
  match items with
  | [] => None
  | (k', v) :: rest =>
      if list_eq_dec N.eq_dec k k' then Some v else dict_get rest k
  end.

Definition dict_keys (items : list (pystr * pyval)) : list pystr :=
  map fst items.

(** ** [json.dumps] with default arguments *)

Module Json.

(** One lower-case hexadecimal digit. *)
Definition hexdigit (d : N) : N :=
  if d <? 10 then 48 + d else 87 + d.

(** [format(n, "x")]: the hexadecimal digits of [n], most significant
    first, with no padding. *)
Fixpoint hex_aux (fuel : nat) (n : N) (acc : pystr) : pystr :=
  match fuel with
  | O => acc
  | S fuel' =>
      let acc' := hexdigit (n mod 16) :: acc in
      if n / 16 =? 0 then acc' else hex_aux fuel' (n / 16) acc'
  end.

Definition hex (n : N) : pystr :=
  hex_aux (S (N.to_nat (N.log2 n))) n [].

(** ['\\u{0:04x}'.format(n)] *)
Definition u_escape (n : N) : pystr :=
  let digits := hex n in
  [BACKSLASH; 117] ++ repeat 48 (4 - List.length digits) ++ digits.

(** [ESCAPE_DCT]: the short escapes, and [\u00XX] for the other control
    characters below 0x20. *)
Definition escape_dct (c : N) : option pystr :=
  if c =? BACKSLASH then Some [BACKSLASH; BACKSLASH]
  else if c =? QUOTE then Some [BACKSLASH; QUOTE]
  else if c =? 8 then Some [BACKSLASH; 98]
  else if c =? 12 then Some [BACKSLASH; 102]
  else if c =? 10 then Some [BACKSLASH; 110]
  else if c =? 13 then Some [BACKSLASH; 114]
  else if c =? 9 then Some [BACKSLASH; 116]
  else if c <? 32 then Some (u_escape c)
  else None.

(** [ESCAPE_ASCII]: the characters that are replaced are the backslash,
    the double quote and everything outside the range from space to
    tilde. *)
Definition needs_escape (c : N) : bool :=
  (c =? BACKSLASH) || (c =? QUOTE) || negb ((32 <=? c) && (c <=? 126)).

(** The [replace] callback of [py_encode_basestring_ascii]. *)
Definition replace (c : N) : pystr :=
  match escape_dct c with
  | Some e => e
  | None =>
      if c <? 65536 then u_escape c
      else
        let n := c - 65536 in
        let s1 := N.lor 55296 (N.land (N.shiftr n 10) 1023) in
        let s2 := N.lor 56320 (N.land n 1023) in
        u_escape s1 ++ u_escape s2
  end.

Definition encode_char (c : N) : pystr :=
  if needs_escape c then replace c else [c].

(** [py_encode_basestring_ascii(s)] *)
Definition encode_basestring_ascii (s : pystr) : pystr :=
  [QUOTE] ++ flat_map encode_char s ++ [QUOTE].

(** [json.dumps(v)]: a list is written as [[e1, e2]], a dictionary as
    [{"k1": v1, "k2": v2}] in insertion order, [True] and [False] as
    [true] and [false]. *)
Fixpoint dumps (v : pyval) : pystr :=
  match v with
  | PyBool true => lit "true"
  | PyBool false => lit "false"
  | PyStr s => encode_basestring_ascii s
  | PyList xs => lit "[" ++ join (lit ", ") (map dumps xs) ++ lit "]"
  | PyDict items =>
      lit "{"
      ++ join (lit ", ")
           (map (fun kv => encode_basestring_ascii (fst kv) ++ lit ": " ++ dumps (snd kv))
                items)
      ++ lit "}"
  end.

End Json.

(** ** The interpreter process *)

(** What a process may read and what outlives it: the command line, the
    environment variables, standard input and the files.  The script
    calls nothing that touches any of them. *)
Record world : Type := mkWorld {
  argv : list pystr;
  environ : list (pystr * pystr);
  stdin : pystr;
  files : list (pystr * pystr)
}.

(** The state of one run: the module's globals ([issues] and [response],
    unbound until assigned), the two output streams and the world. *)
Record process : Type := mkProcess {
  g_issues : option (list pystr);
  g_response : option pyval;
  stdout : pystr;
  stderr : pystr;
  outside : world
}.

(** A fresh interpreter: no global is bound, nothing is written yet. *)
Definition start (w : world) : process :=
  mkProcess None None [] [] w.

Inductive exn : Type :=
| SystemExit (code : Z)
| NameError (name : pystr).

Inductive completion (A : Type) : Type :=
| Returned (a : A)
| Raised (e : exn).

Arguments Returned {A} a.
Arguments Raised {A} e.

(** Statements: they read and update the process and either return or
    raise. *)
Definition M (A : Type) : Type := process -> completion A * process.

Definition ret {A : Type} (a : A) : M A :=
  fun p => (Returned a, p).

Definition bind {A B : Type} (m : M A) (k : A -> M B) : M B :=
  fun p =>
    match m p with
    | (Returned a, p') => k a p'
    | (Raised e, p') => (Raised e, p')
    end.

Definition raise {A : Type} (e : exn) : M A :=
  fun p => (Raised e, p).

Declare Scope py_scope.
Delimit Scope py_scope with py.
Notation "x <- m ;; k" := (bind m (fun x => k))
  (at level 61, m at next level, right associativity) : py_scope.
Notation "m ;; k" := (bind m (fun _ => k))
  (at level 61, right associativity) : py_scope.

Local Open Scope py_scope.

(** [issues = v] *)
Definition store_issues (v : list pystr) : M unit :=
  fun p => (Returned tt,
            mkProcess (Some v) (g_response p) (stdout p) (stderr p) (outside p)).

(** The name [issues] in an expression. *)
Definition load_issues : M (list pystr) :=
  fun p =>
    match g_issues p with
    | Some v => (Returned v, p)
    | None => (Raised (NameError (lit "issues")), p)
    end.

(** [response = v] *)
Definition store_response (v : pyval) : M unit :=
  fun p => (Returned tt,
            mkProcess (g_issues p) (Some v) (stdout p) (stderr p) (outside p)).

(** The name [response] in an expression. *)
Definition load_response : M pyval :=
  fun p =>
    match g_response p with
    | Some v => (Returned v, p)
    | None => (Raised (NameError (lit "response")), p)
    end.

(** [print(s)] for a [str]: the text and a newline go to standard output. *)
Definition print (s : pystr) : M unit :=
  fun p => (Returned tt,
            mkProcess (g_issues p) (g_response p) (stdout p ++ s ++ [NEWLINE])
                      (stderr p) (outside p)).

(** [sys.exit(code)] raises [SystemExit]. *)
Definition sys_exit {A : Type} (code : Z) : M A :=
  raise (SystemExit code).

(** ** The script *)

(** Line 4: the literal bound to [issues]. *)
Definition issues : list pystr := [lit "Issue 1"; lit "Issue 2"].

(** Line 9, left operand: a warning sign (U+26A0, U+FE0F), the title and a
    newline. *)
Definition header : pystr :=
  [9888; 65039] ++ lit " BONZAI BURN FOUND ISSUES:" ++ [NEWLINE].

(** Line 9, the f-string: a bullet (U+2022), a space and the issue. *)
Definition bullet (i : pystr) : pystr :=
  [8226] ++ lit " " ++ i.

(** Line 9: the value of the [stopReason] entry. *)
Definition stop_reason (xs : list pystr) : pystr :=
  header ++ join [NEWLINE] (map bullet xs).

(** Lines 7 to 10: the dictionary display. *)
Definition response (xs : list pystr) : pyval :=
  PyDict [ (lit "continue", PyBool false);
           (lit "stopReason", PyStr (stop_reason xs)) ].

(** Lines 6 to 14: the conditional. *)
Definition body : M unit :=
  cond <- load_issues ;;
  if truthy cond then
    xs <- load_issues ;;
    store_response (response xs) ;;
    r <- load_response ;;
    print (Json.dumps r) ;;
    sys_exit 2%Z
  else
    sys_exit 0%Z.

(** Lines 4 to 14, with the literal of line 4 as the parameter [v]. *)
Definition script (v : list pystr) : M unit :=
  store_issues v ;;
  body.

(** The module as it stands. *)
Definition hello : M unit := script issues.

(** The last line of the traceback the interpreter writes for an uncaught
    exception (the lines that name the file are left out). *)
Definition traceback (e : exn) : pystr :=
  match e with
  | SystemExit _ => []
  | NameError name =>
      lit "NameError: name '" ++ name ++ lit "' is not defined" ++ [NEWLINE]
  end.

(** What the operating system sees of a finished process. *)
Record outcome : Type := mkOutcome {
  status : Z;
  out : pystr;
  err : pystr;
  left_behind : world
}.

(** Running a module to its end: a normal end is status 0, [SystemExit]
    with an integer is that integer, any other exception is reported on
    standard error with status 1. *)
Definition run (m : M unit) (w : world) : outcome :=
  match m (start w) with
  | (Returned _, p) => mkOutcome 0 (stdout p) (stderr p) (outside p)
  | (Raised (SystemExit code), p) =>
      mkOutcome code (stdout p) (stderr p) (outside p)
  | (Raised e, p) =>
      mkOutcome 1 (stdout p) (stderr p ++ traceback e) (outside p)
  end.

(** The standard output of a blocking run of the module as it stands: one
    line of JSON text. *)
Definition blocked_line : pystr :=
  lit "{" ++ [QUOTE] ++ lit "continue" ++ [QUOTE] ++ lit ": false, "
  ++ [QUOTE] ++ lit "stopReason" ++ [QUOTE] ++ lit ": " ++ [QUOTE]
  ++ lit "\u26a0\ufe0f BONZAI BURN FOUND ISSUES:\n\u2022 Issue 1\n\u2022 Issue 2"
  ++ [QUOTE] ++ lit "}" ++ [NEWLINE].

(** A statement that leaves the global [issues] as it found it, whatever
    the state it starts from and however it ends. *)
Definition keeps_issues {A : Type} (m : M A) : Prop :=
  forall p, g_issues (snd (m p)) = g_issues p.

(** A world with nothing in it, for concrete runs. *)
Definition empty_world : world := mkWorld [] [] [] [].

(** The title line of the message: the left operand of line 9 without its
    final newline. *)
Definition title : pystr :=
  [9888; 65039] ++ lit " BONZAI BURN FOUND ISSUES:".





(** Structural induction on values, through the lists and dictionaries
    that hold them. *)
Section PyvalInduction.

Variable P : pyval -> Prop.
Hypothesis Hbool : forall b, P (PyBool b).
Hypothesis Hstr : forall s, P (PyStr s).
Hypothesis Hlist : forall xs, Forall P xs -> P (PyList xs).
Hypothesis Hdict :
  forall items, Forall (fun kv => P (snd kv)) items -> P (PyDict items).


End PyvalInduction.

(** ** Well-formed strings and the reading of escapes *)

(** A Unicode scalar value: a code point a [str] built from decoded text
    holds, that is any code point up to U+10FFFF outside the surrogate
    range U+D800 to U+DFFF. *)
Definition scalar (c : N) : Prop :=
  c < 55296 \/ (57344 <= c /\ c < 1114112).

Definition scalarb (c : N) : bool :=
  (c <? 55296) || ((57344 <=? c) && (c <? 1114112)).

(** The two surrogates [s1] and [s2] that the [replace] callback computes
    for a code point above U+FFFF. *)
Definition high_surrogate (c : N) : N :=
  N.lor 55296 (N.land (N.shiftr (c - 65536) 10) 1023).

Definition low_surrogate (c : N) : N :=
  N.lor 56320 (N.land (c - 65536) 1023).

(** [check_below f n]: [f] holds of every number below [n], by iteration. *)
Definition check_below (f : N -> bool) (n : N) : bool :=
  snd (N.iter n (fun st => (N.succ (fst st), snd st && f (fst st))) (0, true)).

(** The inverse of the escaping, on the escapes the encoder writes for
    strings of scalar values.  The script reads nothing back: this reader
    only serves to show that the escaping loses nothing. *)
Definition unhexdigit (c : N) : option N :=
  if (48 <=? c) && (c <=? 57) then Some (c - 48)
  else if (97 <=? c) && (c <=? 102) then Some (c - 87)
  else None.

Definition unhex4 (a b c d : N) : option N :=
  match unhexdigit a, unhexdigit b, unhexdigit c, unhexdigit d with
  | Some x3, Some x2, Some x1, Some x0 =>
      Some (((x3 * 16 + x2) * 16 + x1) * 16 + x0)
  | _, _, _, _ => None
  end.

Definition unshort (e : N) : option N :=
  if e =? 92 then Some 92
  else if e =? 34 then Some 34
  else if e =? 98 then Some 8
  else if e =? 102 then Some 12
  else if e =? 110 then Some 10
  else if e =? 114 then Some 13
  else if e =? 116 then Some 9
  else None.

Fixpoint unescape (t : pystr) : option pystr :=
  match t with
  | [] => Some []
  | c :: rest =>
      if c =? BACKSLASH then
        match rest with
        | [] => None
        | e :: rest1 =>
            if e =? 117 then
              match rest1 with
              | a :: b :: c' :: d :: rest2 =>
                  match unhex4 a b c' d with
                  | None => None
                  | Some n =>
                      if (55296 <=? n) && (n <? 56320) then
                        match rest2 with
                        | b1 :: u1 :: a' :: b' :: c'' :: d' :: rest3 =>
                            if (b1 =? BACKSLASH) && (u1 =? 117) then
                              match unhex4 a' b' c'' d' with
                              | Some m =>
                                  if (56320 <=? m) && (m <? 57344) then
                                    option_map
                                      (cons (65536 + ((n - 55296) * 1024
                                                      + (m - 56320))))
                                      (unescape rest3)
                                  else None
                              | None => None
                              end
                            else None
                        | _ => None
                        end
                      else option_map (cons n) (unescape rest2)
                  end
              | _ => None
              end
            else
              match unshort e with
              | Some x => option_map (cons x) (unescape rest1)
              | None => None
              end
        end
      else option_map (cons c) (unescape rest)
  end.

(** What [u_escape] must give for the reader to get the number back. *)
Definition u_escape_ok (n : N) : bool :=
  match Json.u_escape n with
  | [b; u; x3; x2; x1; x0] =>
      (b =? BACKSLASH) && (u =? 117)
      && match unhex4 x3 x2 x1 x0 with
         | Some m => m =? n
         | None => false
         end
  | _ => false
  end.

(** What [encode_char] must give for the reader to get the code point
    back: the code point itself, a short escape, or a [u] escape. *)
Definition encode_char_ok (c : N) : bool :=
  match Json.encode_char c with
  | [x] => (x =? c) && negb (x =? BACKSLASH)
  | [b; e] =>
      (b =? BACKSLASH) && negb (e =? 117)
      && match unshort e with
         | Some x => x =? c
         | None => false
         end
  | [b; u; x3; x2; x1; x0] =>
      (b =? BACKSLASH) && (u =? 117)
      && match unhex4 x3 x2 x1 x0 with
         | Some m => m =? c
         | None => false
         end
  | _ => false
  end.

(** ** Reading the printed line back *)

(** The side of the hook's caller: [json.loads] on the line the script
    prints, after [json.decoder] ([py_scanstring] in strict mode,
    [JSONObject], the whitespace skipped between tokens), restricted to
    objects whose values are strings, [true] or [false]; any other text
    is refused.  The members are kept in the order they are read. *)
Module Reader.

(** One hexadecimal digit, in either case. *)
Definition hexval (c : N) : option N :=
  if (48 <=? c) && (c <=? 57) then Some (c - 48)
  else if (97 <=? c) && (c <=? 102) then Some (c - 87)
  else if (65 <=? c) && (c <=? 70) then Some (c - 55)
  else None.

(** [int(esc, 16)] for the four digits of a [u] escape. *)
Definition hex4 (a b c d : N) : option N :=
  match hexval a, hexval b, hexval c, hexval d with
  | Some x3, Some x2, Some x1, Some x0 =>
      Some (((x3 * 16 + x2) * 16 + x1) * 16 + x0)
  | _, _, _, _ => None
  end.

(** The [BACKSLASH] table: the character each short escape stands for. *)
Definition backslash (e : N) : option N :=
  if e =? 34 then Some 34
  else if e =? 92 then Some 92
  else if e =? 47 then Some 47
  else if e =? 98 then Some 8
  else if e =? 102 then Some 12
  else if e =? 110 then Some 10
  else if e =? 114 then Some 13
  else if e =? 116 then Some 9
  else None.

Definition push (c : N) (r : option (pystr * pystr)) : option (pystr * pystr) :=
  match r with
  | Some (s, rest) => Some (c :: s, rest)
  | None => None
  end.

(** [py_scanstring], from the character after the opening quote: the
    string read up to the closing quote, and the text after that quote.
    A control character is refused, a [u] escape of a high surrogate that
    is followed by the [u] escape of a low surrogate is read with it as
    one code point. *)
Fixpoint scanstring (t : pystr) : option (pystr * pystr) :=
  match t with
  | [] => None
  | c :: rest =>
      if c =? QUOTE then Some ([], rest)
      else if c <? 32 then None
      else if c =? BACKSLASH then
        match rest with
        | [] => None
        | e :: rest1 =>
            if e =? 117 then
              match rest1 with
              | x3 :: x2 :: x1 :: x0 :: rest2 =>
                  match hex4 x3 x2 x1 x0 with
                  | None => None
                  | Some n =>
                      if (55296 <=? n) && (n <=? 56319) then
                        match rest2 with
                        | b1 :: u1 :: y3 :: y2 :: y1 :: y0 :: rest3 =>
                            if (b1 =? BACKSLASH) && (u1 =? 117) then
                              match hex4 y3 y2 y1 y0 with
                              | Some m =>
                                  if (56320 <=? m) && (m <=? 57343) then
                                    push (65536
                                          + N.lor (N.shiftl (n - 55296) 10)
                                                  (m - 56320))
                                         (scanstring rest3)
                                  else push n (scanstring rest2)
                              | None => None
                              end
                            else push n (scanstring rest2)
                        | _ => push n (scanstring rest2)
                        end
                      else push n (scanstring rest2)
                  end
              | _ => None
              end
            else
              match backslash e with
              | Some x => push x (scanstring rest1)
              | None => None
              end
        end
      else push c (scanstring rest)
  end.

(** The whitespace skipped between tokens: space, tab, newline, carriage
    return. *)
Definition is_ws (c : N) : bool :=
  (c =? 32) || (c =? 9) || (c =? 10) || (c =? 13).

Fixpoint skip_ws (t : pystr) : pystr :=
  match t with
  | [] => []
  | c :: rest => if is_ws c then skip_ws rest else t
  end.

(** [t] without the prefix [p], when it starts with it. *)
Fixpoint strip_prefix (p t : pystr) : option pystr :=
  match p, t with
  | [], _ => Some t
  | a :: p', b :: t' => if a =? b then strip_prefix p' t' else None
  | _ :: _, [] => None
  end.

(** A value: a string, [true] or [false]. *)
Definition scan_value (t : pystr) : option (pyval * pystr) :=
  match t with
  | [] => None
  | c :: rest =>
      if c =? QUOTE then
        match scanstring rest with
        | Some (s, rest') => Some (PyStr s, rest')
        | None => None
        end
      else
        match strip_prefix (lit "true") t with
        | Some rest' => Some (PyBool true, rest')
        | None =>
            match strip_prefix (lit "false") t with
            | Some rest' => Some (PyBool false, rest')
            | None => None
            end
        end
  end.

(** The members of an object, from the opening quote of a key to the
    closing brace; [fuel] bounds the number of members. *)
Fixpoint scan_members (fuel : nat) (t : pystr)
  : option (list (pystr * pyval) * pystr) :=
  match fuel with
  | O => None
  | S fuel' =>
      match t with
      | [] => None
      | q :: t1 =>
          if q =? QUOTE then
            match scanstring t1 with
            | None => None
            | Some (k, t2) =>
                match skip_ws t2 with
                | [] => None
                | c :: t3 =>
                    if c =? 58 then
                      match scan_value (skip_ws t3) with
                      | None => None
                      | Some (v, t4) =>
                          match skip_ws t4 with
                          | [] => None
                          | d :: t5 =>
                              if d =? 125 then Some ([(k, v)], t5)
                              else if d =? 44 then
                                match scan_members fuel' (skip_ws t5) with
                                | Some (more, t6) => Some ((k, v) :: more, t6)
                                | None => None
                                end
                              else None
                          end
                      end
                    else None
                end
            end
          else None
      end
  end.

(** [json.loads(t)] for such an object: nothing but whitespace may stand
    before the opening brace and after the closing one. *)
Definition loads (t : pystr) : option pyval :=
  match skip_ws t with
  | [] => None
  | c :: t1 =>
      if c =? 123 then
        match skip_ws t1 with
        | [] => None
        | d :: t2 =>
            if d =? 125 then
              match skip_ws t2 with
              | [] => Some (PyDict [])
              | _ :: _ => None
              end
            else
              match scan_members (List.length t) (d :: t2) with
              | Some (items, rest) =>
                  match skip_ws rest with
                  | [] => Some (PyDict items)
                  | _ :: _ => None
                  end
              | None => None
              end
        end
      else None
  end.

(** [s.split(sep)] for a one-character separator: the pieces between
    the separators, of which there is always at least one. *)
Fixpoint split (sep : N) (s : pystr) : list pystr :=
  match s with
  | [] => [[]]
  | c :: rest =>
      if c =? sep then [] :: split sep rest
      else
        match split sep rest with
        | piece :: pieces => (c :: piece) :: pieces
        | [] => [[c]]
        end
  end.

End Reader.

(** What [encode_char] must give for [Reader.scanstring] to read the code
    point back: the code point itself when it is printable and neither
    quote nor backslash, a short escape, or a [u] escape. *)
Definition encode_char_reads (c : N) : bool :=
  match Json.encode_char c with
  | [x] => (x =? c) && (32 <=? x) && negb (x =? QUOTE) && negb (x =? BACKSLASH)
  | [b; e] =>
      (b =? BACKSLASH) && negb (e =? 117)
      && match Reader.backslash e with
         | Some x => x =? c
         | None => false
         end
  | [b; u; x3; x2; x1; x0] =>
      (b =? BACKSLASH) && (u =? 117)
      && match Reader.hex4 x3 x2 x1 x0 with
         | Some m => m =? c
         | None => false
         end
  | _ => false
  end.

(** * Properties *)

(** ** Running the script *)

Section Runs.

Variable w : world.

Lemma script_empty :
  script [] (start w)
  = (Raised (SystemExit 0), mkProcess (Some []) None [] [] w).
Proof. reflexivity. Qed.

Lemma script_nonempty (v : list pystr) :
  v <> [] ->
  script v (start w)
  = (Raised (SystemExit 2),
     mkProcess (Some v) (Some (response v))
               (Json.dumps (response v) ++ [NEWLINE]) [] w).
Proof.
  destruct v as [|i v]; [congruence | intros _].
  reflexivity.
Qed.

Lemma run_empty : run (script []) w = mkOutcome 0 [] [] w.
Proof. unfold run. rewrite script_empty. reflexivity. Qed.

Lemma run_nonempty (v : list pystr) :
  v <> [] ->
  run (script v) w
  = mkOutcome 2 (Json.dumps (response v) ++ [NEWLINE]) [] w.
Proof. intros Hv. unfold run. rewrite (script_nonempty v Hv). reflexivity. Qed.

Lemma out_nonempty_inv (v : list pystr) :
  out (run (script v) w) <> [] -> v <> [].
Proof.
  intros Hout Hv. subst v. rewrite run_empty in Hout. now apply Hout.
Qed.

(** Without line 4 the conditional would not run: the name [issues] is
    unbound, the interpreter reports the [NameError] on standard error and
    the status is 1.  The script never takes this path, because the
    binding comes first. *)
Lemma body_unbound (p : process) :
  g_issues p = None -> body p = (Raised (NameError (lit "issues")), p).
Proof.
  intros Hnone. unfold body, bind, load_issues. now rewrite Hnone.
Qed.

Lemma run_body_alone :
  run body w
  = mkOutcome 1 [] (lit "NameError: name 'issues' is not defined" ++ [NEWLINE]) w.
Proof. unfold run. rewrite body_unbound; reflexivity. Qed.

End Runs.

(** Both shapes of the list bound on line 4, each with the run it gives. *)
Ltac run_cases v w :=
  let i := fresh "i" in
  destruct v as [|i v];
  [ rewrite ?(script_empty w), ?(run_empty w)
  | rewrite ?(script_nonempty w), ?(run_nonempty w) by discriminate ].

(** ** Lists of strings *)

Lemma join_cons2 (sep x y : pystr) (rest : list pystr) :
  join sep (x :: y :: rest) = x ++ sep ++ join sep (y :: rest).
Proof. reflexivity. Qed.

Lemma join_Forall (P : N -> Prop) (sep : pystr) (xs : list pystr) :
  Forall P sep -> Forall (Forall P) xs -> Forall P (join sep xs).
Proof.
  intros Hsep Hxs. induction Hxs as [|x rest Hx Hrest IH]; [constructor|].
  destruct rest as [|y rest]; [exact Hx|].
  rewrite join_cons2. repeat (apply Forall_app; split); assumption.
Qed.

(** Every element of a joined list stands in the result between two
    separators, or at one of its ends. *)
Lemma join_In (sep x : pystr) (xs : list pystr) :
  In x xs ->
  exists pre post,
    join sep xs = pre ++ x ++ post
    /\ (pre = [] \/ exists pre', pre = pre' ++ sep)
    /\ (post = [] \/ exists post', post = sep ++ post').
Proof.
  induction xs as [|y rest IH]; [intros []|].
  intros [Heq | Hin].
  - subst y. destruct rest as [|z rest].
    + exists [], []. simpl. rewrite app_nil_r. auto.
    + exists [], (sep ++ join sep (z :: rest)). rewrite join_cons2.
      split; [reflexivity | split; [now left | right; eauto]].
  - destruct rest as [|z rest]; [destruct Hin|].
    destruct (IH Hin) as (pre & post & Hjoin & Hpre & Hpost).
    exists (y ++ sep ++ pre), post. rewrite join_cons2, Hjoin.
    split; [now rewrite <- !app_assoc|].
    split; [|exact Hpost].
    right. destruct Hpre as [-> | [pre' ->]].
    + exists y. now rewrite app_nil_r.
    + exists (y ++ sep ++ pre'). now rewrite <- !app_assoc.
Qed.

(** ** The text [json.dumps] writes *)

Module JsonFacts.
Import Json.















Lemma flat_map_encode_app (a b : pystr) :
  flat_map encode_char (a ++ b)
  = flat_map encode_char a ++ flat_map encode_char b.
Proof. apply flat_map_app. Qed.

End JsonFacts.

(** ** The message of line 9 *)

Lemma header_title : header = title ++ [NEWLINE].
Proof. reflexivity. Qed.

Lemma stop_reason_title (v : list pystr) :
  stop_reason v = title ++ [NEWLINE] ++ join [NEWLINE] (map bullet v).
Proof. unfold stop_reason. rewrite header_title, <- app_assoc. reflexivity. Qed.



(** Every issue has its bullet line in the message, after a newline and
    up to the next newline or the end. *)
Lemma stop_reason_lists (v : list pystr) (i : pystr) :
  In i v ->
  exists pre post,
    stop_reason v = pre ++ [NEWLINE] ++ bullet i ++ post
    /\ (post = [] \/ exists post', post = NEWLINE :: post').
Proof.
  intros Hi.
  destruct (join_In [NEWLINE] (bullet i) (map bullet v) (in_map bullet v i Hi))
    as (pre & post & Hjoin & Hpre & Hpost).
  rewrite stop_reason_title, Hjoin.
  destruct Hpre as [-> | [pre' ->]].
  - exists title, post. split; [reflexivity | exact Hpost].
  - exists (title ++ [NEWLINE] ++ pre'), post.
    split; [|exact Hpost]. now rewrite <- !app_assoc.
Qed.

(** ** Statements that leave [issues] alone *)

Lemma keeps_issues_bind {A B : Type} (m : M A) (k : A -> M B) :
  keeps_issues m -> (forall a, keeps_issues (k a)) -> keeps_issues (bind m k).
Proof.
  intros Hm Hk p. unfold bind. specialize (Hm p).
  destruct (m p) as [[a|e] p']; simpl in *.
  - rewrite Hk. exact Hm.
  - exact Hm.
Qed.

Lemma keeps_issues_load_issues : keeps_issues load_issues.
Proof. intros p. unfold load_issues. now destruct (g_issues p) eqn:E. Qed.

Lemma keeps_issues_store_response (r : pyval) : keeps_issues (store_response r).
Proof. intros p. reflexivity. Qed.

Lemma keeps_issues_load_response : keeps_issues load_response.
Proof. intros p. unfold load_response. now destruct (g_response p). Qed.

Lemma keeps_issues_print (s : pystr) : keeps_issues (print s).
Proof. intros p. reflexivity. Qed.

Lemma keeps_issues_sys_exit {A : Type} (code : Z) :
  keeps_issues (@sys_exit A code).
Proof. intros p. reflexivity. Qed.

Create HintDb frame.
#[local] Hint Resolve keeps_issues_load_issues keeps_issues_store_response
  keeps_issues_load_response keeps_issues_print keeps_issues_sys_exit : frame.

Lemma keeps_issues_body : keeps_issues body.
Proof.
  unfold body. apply keeps_issues_bind; [auto with frame|].
  intros cond. destruct (truthy cond); [|auto with frame].
  repeat (apply keeps_issues_bind; [auto with frame | intros ?]).
  auto with frame.
Qed.

(** ** What a run writes and how it ends *)

(** The text of the payload around the escaped message. *)
Lemma dumps_response_text (v : list pystr) :
  Json.dumps (response v)
  = (lit "{" ++ [QUOTE] ++ lit "continue" ++ [QUOTE] ++ lit ": false, "
     ++ [QUOTE] ++ lit "stopReason" ++ [QUOTE] ++ lit ": " ++ [QUOTE])
    ++ flat_map Json.encode_char (stop_reason v)
    ++ [QUOTE] ++ lit "}".
Proof.
  change (Json.dumps (response v))
    with ((lit "{" ++ [QUOTE] ++ lit "continue" ++ [QUOTE] ++ lit ": false, "
           ++ [QUOTE] ++ lit "stopReason" ++ [QUOTE] ++ lit ": " ++ [QUOTE])
          ++ (flat_map Json.encode_char (stop_reason v) ++ [QUOTE]) ++ lit "}").
  now rewrite <- (app_assoc (flat_map Json.encode_char (stop_reason v))).
Qed.

Lemma out_nonempty (v : list pystr) (w : world) :
  v <> [] -> out (run (script v) w) <> [].
Proof.
  intros Hv. rewrite (run_nonempty w v Hv). cbn [out].
  intros H. apply app_eq_nil in H. destruct H as [_ H]. discriminate H.
Qed.

Lemma run_world_independent (v : list pystr) (w1 w2 : world) :
  status (run (script v) w1) = status (run (script v) w2)
  /\ out (run (script v) w1) = out (run (script v) w2)
  /\ err (run (script v) w1) = err (run (script v) w2).
Proof.
  destruct v as [|i v].
  - rewrite !run_empty. repeat split.
  - rewrite !run_nonempty by discriminate. repeat split.
Qed.

Lemma run_leaves_world (v : list pystr) (w : world) :
  left_behind (run (script v) w) = w.
Proof. run_cases v w; reflexivity. Qed.


(** ** The escaping loses nothing *)

Module Escapes.
Import Json.

Lemma check_below_iter (f : N -> bool) (n : N) :
  fst (N.iter n (fun st => (N.succ (fst st), snd st && f (fst st))) (0, true))
  = n.
Proof.
  induction n as [|n IH] using N.peano_ind; [reflexivity|].
  rewrite N.iter_succ. cbn [fst]. now rewrite IH.
Qed.

Lemma check_below_spec (f : N -> bool) (n : N) :
  check_below f n = true -> forall k, k < n -> f k = true.
Proof.
  unfold check_below.
  induction n as [|n IH] using N.peano_ind; intros Hall k Hk; [lia|].
  rewrite N.iter_succ in Hall. cbn [snd] in Hall.
  rewrite check_below_iter in Hall.
  apply andb_true_iff in Hall. destruct Hall as [Hbelow Hn].
  destruct (N.eq_dec k n) as [-> | Hne]; [exact Hn|].
  apply IH; [exact Hbelow | lia].
Qed.

(** Up to U+FFFF the escape is a backslash, a [u] and four hexadecimal
    digits that read back as the number: checked on each of the 65536
    values. *)
Lemma u_escape_ok_below : check_below u_escape_ok 65536 = true.
Proof. vm_compute. reflexivity. Qed.

Lemma u_escape_read (n : N) :
  n < 65536 ->
  exists x3 x2 x1 x0,
    u_escape n = [BACKSLASH; 117; x3; x2; x1; x0]
    /\ unhex4 x3 x2 x1 x0 = Some n.
Proof.
  intros Hn. pose proof (check_below_spec _ _ u_escape_ok_below n Hn) as Hok.
  unfold u_escape_ok in Hok.
  destruct (u_escape n) as [|b [|u [|x3 [|x2 [|x1 [|x0 [|? ?]]]]]]];
    try discriminate Hok.
  apply andb_true_iff in Hok. destruct Hok as [Hbu Hhex].
  apply andb_true_iff in Hbu. destruct Hbu as [Hb Hu].
  apply N.eqb_eq in Hb, Hu. subst b u.
  exists x3, x2, x1, x0. split; [reflexivity|].
  destruct (unhex4 x3 x2 x1 x0) as [m|]; [|discriminate Hhex].
  apply N.eqb_eq in Hhex. now subst m.
Qed.

(** The surrogates of a code point above U+FFFF. *)
Lemma lor_low_bits_ok :
  check_below (fun x => (N.lor 55296 x =? 55296 + x)
                        && (N.lor 56320 x =? 56320 + x)) 1024 = true.
Proof. vm_compute. reflexivity. Qed.

Lemma lor_low_bits (x : N) :
  x < 1024 -> N.lor 55296 x = 55296 + x /\ N.lor 56320 x = 56320 + x.
Proof.
  intros Hx. pose proof (check_below_spec _ _ lor_low_bits_ok x Hx) as H.
  cbv beta in H. apply andb_true_iff in H.
  now rewrite !N.eqb_eq in H.
Qed.

Lemma land_1023 (a : N) : N.land a 1023 = a mod 1024.
Proof. change 1023 with (N.ones 10). now rewrite N.land_ones. Qed.

Lemma high_surrogate_eq (c : N) :
  high_surrogate c = 55296 + ((c - 65536) / 1024) mod 1024.
Proof.
  unfold high_surrogate. rewrite land_1023, N.shiftr_div_pow2.
  change (2 ^ 10) with 1024.
  apply lor_low_bits. apply N.mod_lt. discriminate.
Qed.

Lemma low_surrogate_eq (c : N) :
  low_surrogate c = 56320 + (c - 65536) mod 1024.
Proof.
  unfold low_surrogate. rewrite land_1023.
  apply lor_low_bits. apply N.mod_lt. discriminate.
Qed.

Lemma high_surrogate_range (c : N) :
  55296 <= high_surrogate c < 56320.
Proof.
  rewrite high_surrogate_eq.
  assert (H : ((c - 65536) / 1024) mod 1024 < 1024)
    by (apply N.mod_lt; discriminate).
  revert H. generalize (((c - 65536) / 1024) mod 1024). intros m H. lia.
Qed.

Lemma low_surrogate_range (c : N) :
  56320 <= low_surrogate c < 57344.
Proof.
  rewrite low_surrogate_eq.
  assert (H : (c - 65536) mod 1024 < 1024)
    by (apply N.mod_lt; discriminate).
  revert H. generalize ((c - 65536) mod 1024). intros m H. lia.
Qed.

Lemma surrogates_recombine (c : N) :
  65536 <= c < 1114112 ->
  65536 + ((high_surrogate c - 55296) * 1024 + (low_surrogate c - 56320)) = c.
Proof.
  intros Hc. rewrite high_surrogate_eq, low_surrogate_eq.
  assert (Hq : (c - 65536) / 1024 < 1024).
  { apply N.Div0.div_lt_upper_bound. lia. }
  rewrite (N.mod_small _ _ Hq).
  assert (Hdm : c - 65536
                = 1024 * ((c - 65536) / 1024) + (c - 65536) mod 1024)
    by (apply N.div_mod; discriminate).
  revert Hdm. generalize ((c - 65536) / 1024) ((c - 65536) mod 1024).
  intros q r Hdm. lia.
Qed.

(** How each code point is written. *)
Lemma replace_astral (c : N) :
  65536 <= c ->
  replace c = u_escape (high_surrogate c) ++ u_escape (low_surrogate c).
Proof.
  intros Hc. unfold replace, escape_dct, BACKSLASH, QUOTE.
  repeat match goal with
         | |- context [N.eqb ?a ?b] => destruct (N.eqb_spec a b); [lia|]
         | |- context [N.ltb ?a ?b] => destruct (N.ltb_spec a b); [lia|]
         end.
  reflexivity.
Qed.

Lemma encode_char_astral (c : N) :
  65536 <= c ->
  encode_char c = u_escape (high_surrogate c) ++ u_escape (low_surrogate c).
Proof.
  intros Hc. unfold encode_char, needs_escape, BACKSLASH, QUOTE.
  destruct (N.eqb_spec c 92); [lia|]. destruct (N.eqb_spec c 34); [lia|].
  destruct (N.leb_spec c 126); [lia|].
  rewrite andb_false_r. cbn [negb orb]. now apply replace_astral.
Qed.

Lemma encode_char_u_escape (c : N) :
  127 <= c < 65536 -> encode_char c = u_escape c.
Proof.
  intros Hc. unfold encode_char, needs_escape, BACKSLASH, QUOTE.
  destruct (N.eqb_spec c 92); [lia|]. destruct (N.eqb_spec c 34); [lia|].
  destruct (N.leb_spec c 126); [lia|].
  rewrite andb_false_r. cbn [negb orb].
  unfold replace, escape_dct, BACKSLASH, QUOTE.
  repeat match goal with
         | |- context [N.eqb ?a ?b] => destruct (N.eqb_spec a b); [lia|]
         end.
  destruct (N.ltb_spec c 32); [lia|].
  destruct (N.ltb_spec c 65536); [reflexivity | lia].
Qed.

(** The reader, one escape at a time. *)
Lemma unescape_plain (c : N) (t : pystr) :
  c <> BACKSLASH -> unescape (c :: t) = option_map (cons c) (unescape t).
Proof.
  intros Hc. cbn [unescape].
  destruct (N.eqb_spec c BACKSLASH); [contradiction | reflexivity].
Qed.

Lemma unescape_short (e x : N) (t : pystr) :
  e <> 117 -> unshort e = Some x ->
  unescape (BACKSLASH :: e :: t) = option_map (cons x) (unescape t).
Proof.
  intros He Hx. cbn [unescape]. rewrite N.eqb_refl.
  destruct (N.eqb_spec e 117); [contradiction|]. now rewrite Hx.
Qed.

Lemma unescape_u (n x3 x2 x1 x0 : N) (t : pystr) :
  unhex4 x3 x2 x1 x0 = Some n -> n < 55296 \/ 56320 <= n ->
  unescape (BACKSLASH :: 117 :: x3 :: x2 :: x1 :: x0 :: t)
  = option_map (cons n) (unescape t).
Proof.
  intros Hn Hrange. cbn [unescape]. rewrite !N.eqb_refl, Hn.
  destruct (N.leb_spec 55296 n), (N.ltb_spec n 56320);
    cbn [andb]; try reflexivity; lia.
Qed.

Lemma unescape_pair (n m x3 x2 x1 x0 y3 y2 y1 y0 : N) (t : pystr) :
  unhex4 x3 x2 x1 x0 = Some n -> 55296 <= n < 56320 ->
  unhex4 y3 y2 y1 y0 = Some m -> 56320 <= m < 57344 ->
  unescape (BACKSLASH :: 117 :: x3 :: x2 :: x1 :: x0
            :: BACKSLASH :: 117 :: y3 :: y2 :: y1 :: y0 :: t)
  = option_map (cons (65536 + ((n - 55296) * 1024 + (m - 56320))))
      (unescape t).
Proof.
  intros Hn Hnr Hm Hmr. cbn [unescape]. rewrite !N.eqb_refl, Hn.
  destruct (N.leb_spec 55296 n); [|lia].
  destruct (N.ltb_spec n 56320); [|lia].
  cbn [andb]. rewrite Hm.
  destruct (N.leb_spec 56320 m); [|lia].
  destruct (N.ltb_spec m 57344); [|lia].
  reflexivity.
Qed.

(** Below 127 the three shapes are checked value by value. *)
Lemma encode_char_ok_below : check_below encode_char_ok 127 = true.
Proof. vm_compute. reflexivity. Qed.

Lemma unescape_encode_char (c : N) (t : pystr) :
  scalar c ->
  unescape (encode_char c ++ t) = option_map (cons c) (unescape t).
Proof.
  intros Hc.
  destruct (N.lt_ge_cases c 127) as [Hlow | Hmid];
    [|destruct (N.lt_ge_cases c 65536) as [Hbmp | Hastral]].
  - pose proof (check_below_spec _ _ encode_char_ok_below c Hlow) as Hok.
    unfold encode_char_ok in Hok.
    destruct (encode_char c) as [|a [|b [|u [|x2 [|x1 [|x0 [|? ?]]]]]]];
      try discriminate Hok.
    + apply andb_true_iff in Hok. destruct Hok as [Ha Hne].
      apply N.eqb_eq in Ha. subst a.
      apply negb_true_iff, N.eqb_neq in Hne.
      now apply unescape_plain.
    + apply andb_true_iff in Hok. destruct Hok as [Hab Hx].
      apply andb_true_iff in Hab. destruct Hab as [Ha Hb].
      apply N.eqb_eq in Ha. subst a.
      apply negb_true_iff, N.eqb_neq in Hb.
      destruct (unshort b) as [x|] eqn:Hun; [|discriminate Hx].
      apply N.eqb_eq in Hx. subst x.
      now apply unescape_short.
    + apply andb_true_iff in Hok. destruct Hok as [Hab Hx].
      apply andb_true_iff in Hab. destruct Hab as [Ha Hb].
      apply N.eqb_eq in Ha, Hb. subst a b.
      destruct (unhex4 u x2 x1 x0) as [m|] eqn:Hun; [|discriminate Hx].
      apply N.eqb_eq in Hx. subst m.
      apply unescape_u; [exact Hun | lia].
  - rewrite encode_char_u_escape by lia.
    destruct (u_escape_read c Hbmp) as (x3 & x2 & x1 & x0 & -> & Hun).
    apply unescape_u; [exact Hun|].
    destruct Hc as [Hc | Hc]; lia.
  - rewrite encode_char_astral by exact Hastral.
    pose proof (high_surrogate_range c) as Hh.
    pose proof (low_surrogate_range c) as Hl.
    destruct (u_escape_read (high_surrogate c))
      as (x3 & x2 & x1 & x0 & -> & Hx); [lia|].
    destruct (u_escape_read (low_surrogate c))
      as (y3 & y2 & y1 & y0 & -> & Hy); [lia|].
    cbn [app].
    rewrite (unescape_pair _ _ _ _ _ _ _ _ _ _ t Hx Hh Hy Hl).
    rewrite surrogates_recombine; [reflexivity|].
    destruct Hc as [Hc | Hc]; lia.
Qed.

Lemma unescape_encode (s : pystr) :
  Forall scalar s -> unescape (flat_map encode_char s) = Some s.
Proof.
  induction 1 as [|c s Hc Hs IH]; [reflexivity|].
  cbn [flat_map]. rewrite (unescape_encode_char c _ Hc), IH. reflexivity.
Qed.

Lemma flat_map_encode_inj (s1 s2 : pystr) :
  Forall scalar s1 -> Forall scalar s2 ->
  flat_map encode_char s1 = flat_map encode_char s2 -> s1 = s2.
Proof.
  intros H1 H2 Heq. apply (f_equal unescape) in Heq.
  rewrite !unescape_encode in Heq by assumption. now inversion Heq.
Qed.

Lemma encode_char_plain (s : pystr) :
  Forall (fun c => needs_escape c = false) s -> flat_map encode_char s = s.
Proof.
  induction 1 as [|c s Hc Hs IH]; [reflexivity|].
  cbn [flat_map]. unfold encode_char at 1. rewrite Hc, IH. reflexivity.
Qed.

End Escapes.

(** ** The reader on what the script prints *)

Lemma scalarb_spec (c : N) : scalarb c = true -> scalar c.
Proof.
  unfold scalarb, scalar. rewrite orb_true_iff, andb_true_iff.
  rewrite !N.ltb_lt, N.leb_le. tauto.
Qed.

Lemma scalar_forallb (s : pystr) :
  forallb scalarb s = true -> Forall scalar s.
Proof.
  rewrite forallb_forall, Forall_forall.
  intros H c Hc. apply scalarb_spec, H, Hc.
Qed.

Lemma stop_reason_scalar (v : list pystr) :
  Forall (Forall scalar) v -> Forall scalar (stop_reason v).
Proof.
  intros Hv. unfold stop_reason.
  apply Forall_app. split; [apply scalar_forallb; reflexivity|].
  apply join_Forall; [apply scalar_forallb; reflexivity|].
  apply Forall_map. eapply Forall_impl; [|exact Hv].
  intros i Hi. unfold bullet.
  apply Forall_app. split; [apply scalar_forallb; reflexivity|].
  apply Forall_app. split; [apply scalar_forallb; reflexivity | exact Hi].
Qed.

Module ReaderFacts.
Import Json Reader.

(** The digits the encoder writes are digits for the reader. *)
Lemma hexval_unhexdigit (c d : N) : unhexdigit c = Some d -> hexval c = Some d.
Proof.
  unfold unhexdigit, hexval.
  destruct ((48 <=? c) && (c <=? 57)); [trivial|].
  destruct ((97 <=? c) && (c <=? 102)); [trivial | discriminate].
Qed.

Lemma hex4_unhex4 (a b c d n : N) :
  unhex4 a b c d = Some n -> hex4 a b c d = Some n.
Proof.
  unfold unhex4, hex4.
  destruct (unhexdigit a) as [x3|] eqn:Ea; [|discriminate].
  destruct (unhexdigit b) as [x2|] eqn:Eb; [|discriminate].
  destruct (unhexdigit c) as [x1|] eqn:Ec; [|discriminate].
  destruct (unhexdigit d) as [x0|] eqn:Ed; [|discriminate].
  rewrite (hexval_unhexdigit _ _ Ea), (hexval_unhexdigit _ _ Eb),
    (hexval_unhexdigit _ _ Ec), (hexval_unhexdigit _ _ Ed).
  trivial.
Qed.

Lemma u_escape_reads (n : N) :
  n < 65536 ->
  exists x3 x2 x1 x0,
    u_escape n = [BACKSLASH; 117; x3; x2; x1; x0]
    /\ hex4 x3 x2 x1 x0 = Some n.
Proof.
  intros Hn.
  destruct (Escapes.u_escape_read n Hn) as (x3 & x2 & x1 & x0 & Hu & Hx).
  exists x3, x2, x1, x0. split; [exact Hu | now apply hex4_unhex4].
Qed.

(** The shift and the bitwise or of the reader are a product and a sum. *)
Lemma lor_shiftl_10 (a b : N) :
  b < 1024 -> N.lor (N.shiftl a 10) b = a * 1024 + b.
Proof.
  intros Hb. rewrite N.shiftl_mul_pow2.
  assert (Hland : N.land (a * 2 ^ 10) b = 0).
  { apply N.bits_inj. intros i. rewrite N.land_spec, N.bits_0.
    destruct (N.lt_ge_cases i 10) as [Hi | Hi].
    - now rewrite N.mul_pow2_bits_low.
    - rewrite <- (N.mod_small b (2 ^ 10)) by exact Hb.
      rewrite (N.mod_pow2_bits_high b 10 i Hi). apply andb_false_r. }
  rewrite <- (N.lxor_lor _ _ Hland). symmetry.
  now apply N.add_nocarry_lxor.
Qed.

(** The reader, one character or escape at a time. *)
Lemma scan_quote (t : pystr) : scanstring (QUOTE :: t) = Some ([], t).
Proof. reflexivity. Qed.

Lemma scan_plain (c : N) (t : pystr) :
  32 <= c -> c <> QUOTE -> c <> BACKSLASH ->
  scanstring (c :: t) = push c (scanstring t).
Proof.
  intros Hc Hq Hb. cbn [scanstring].
  destruct (N.eqb_spec c QUOTE); [contradiction|].
  destruct (N.ltb_spec c 32); [lia|].
  destruct (N.eqb_spec c BACKSLASH); [contradiction | reflexivity].
Qed.

Lemma scan_short (e x : N) (t : pystr) :
  e <> 117 -> backslash e = Some x ->
  scanstring (BACKSLASH :: e :: t) = push x (scanstring t).
Proof.
  intros He Hx. cbn [scanstring].
  change (BACKSLASH =? QUOTE) with false. change (BACKSLASH <? 32) with false.
  rewrite N.eqb_refl.
  destruct (N.eqb_spec e 117); [contradiction|]. now rewrite Hx.
Qed.

Lemma scan_u (n x3 x2 x1 x0 : N) (t : pystr) :
  hex4 x3 x2 x1 x0 = Some n -> n < 55296 \/ 56320 <= n ->
  scanstring (BACKSLASH :: 117 :: x3 :: x2 :: x1 :: x0 :: t)
  = push n (scanstring t).
Proof.
  intros Hn Hrange. cbn [scanstring].
  change (BACKSLASH =? QUOTE) with false. change (BACKSLASH <? 32) with false.
  rewrite !N.eqb_refl, Hn.
  destruct (N.leb_spec 55296 n), (N.leb_spec n 56319);
    cbn [andb]; try reflexivity; lia.
Qed.

Lemma scan_pair (n m x3 x2 x1 x0 y3 y2 y1 y0 : N) (t : pystr) :
  hex4 x3 x2 x1 x0 = Some n -> 55296 <= n < 56320 ->
  hex4 y3 y2 y1 y0 = Some m -> 56320 <= m < 57344 ->
  scanstring (BACKSLASH :: 117 :: x3 :: x2 :: x1 :: x0
              :: BACKSLASH :: 117 :: y3 :: y2 :: y1 :: y0 :: t)
  = push (65536 + ((n - 55296) * 1024 + (m - 56320))) (scanstring t).
Proof.
  intros Hn Hnr Hm Hmr. cbn [scanstring].
  change (BACKSLASH =? QUOTE) with false. change (BACKSLASH <? 32) with false.
  rewrite !N.eqb_refl, Hn.
  destruct (N.leb_spec 55296 n); [|lia].
  destruct (N.leb_spec n 56319); [|lia].
  cbn [andb]. rewrite Hm.
  destruct (N.leb_spec 56320 m); [|lia].
  destruct (N.leb_spec m 57343); [|lia].
  cbn [andb]. rewrite lor_shiftl_10 by lia. reflexivity.
Qed.

(** A high surrogate stays alone when no escape of a low surrogate
    follows it. *)
Lemma scan_high_alone (n x3 x2 x1 x0 : N) (t : pystr) :
  hex4 x3 x2 x1 x0 = Some n ->
  (forall y3 y2 y1 y0 r m,
      t = BACKSLASH :: 117 :: y3 :: y2 :: y1 :: y0 :: r ->
      hex4 y3 y2 y1 y0 = Some m -> m < 56320 \/ 57344 <= m) ->
  scanstring (BACKSLASH :: 117 :: x3 :: x2 :: x1 :: x0 :: t)
  = push n (scanstring t).
Proof.
  intros Hn Hnext.
  assert (Hstep :
    scanstring (BACKSLASH :: 117 :: x3 :: x2 :: x1 :: x0 :: t)
    = if (55296 <=? n) && (n <=? 56319) then
        match t with
        | b1 :: u1 :: y3 :: y2 :: y1 :: y0 :: rest3 =>
            if (b1 =? BACKSLASH) && (u1 =? 117) then
              match hex4 y3 y2 y1 y0 with
              | Some m =>
                  if (56320 <=? m) && (m <=? 57343) then
                    push (65536 + N.lor (N.shiftl (n - 55296) 10) (m - 56320))
                         (scanstring rest3)
                  else push n (scanstring t)
              | None => None
              end
            else push n (scanstring t)
        | _ => push n (scanstring t)
        end
      else push n (scanstring t)).
  { cbn [scanstring].
    change (BACKSLASH =? QUOTE) with false. change (BACKSLASH <? 32) with false.
    rewrite !N.eqb_refl, Hn. reflexivity. }
  rewrite Hstep. clear Hstep.
  destruct ((55296 <=? n) && (n <=? 56319)); [|reflexivity].
  destruct t as [|b1 [|u1 [|y3 [|y2 [|y1 [|y0 rest3]]]]]]; try reflexivity.
  destruct (N.eqb_spec b1 BACKSLASH) as [-> | Hb]; [|reflexivity].
  destruct (N.eqb_spec u1 117) as [-> | Hu]; [|reflexivity].
  cbn [andb].
  destruct (hex4 y3 y2 y1 y0) as [m|] eqn:Hm.
  - destruct (Hnext y3 y2 y1 y0 rest3 m eq_refl Hm) as [Hlow | Hhigh].
    + destruct (N.leb_spec 56320 m); [lia | reflexivity].
    + destruct (N.leb_spec m 57343); [lia|]. now rewrite andb_false_r.
  - (* the second escape is no number: the reader fails on it either way *)
    cbn [scanstring].
    change (BACKSLASH =? QUOTE) with false. change (BACKSLASH <? 32) with false.
    rewrite !N.eqb_refl, Hm. reflexivity.
Qed.

(** Below 127 the shapes of [encode_char] are checked value by value. *)
Lemma encode_char_reads_below : check_below encode_char_reads 127 = true.
Proof. vm_compute. reflexivity. Qed.

(** The three shapes below 127, spelled out. *)
Lemma encode_char_low_shape (c : N) :
  c < 127 ->
  (encode_char c = [c] /\ 32 <= c /\ c <> QUOTE /\ c <> BACKSLASH)
  \/ (exists e, encode_char c = [BACKSLASH; e] /\ e <> 117
                /\ backslash e = Some c)
  \/ (exists x3 x2 x1 x0,
         encode_char c = [BACKSLASH; 117; x3; x2; x1; x0]
         /\ hex4 x3 x2 x1 x0 = Some c).
Proof.
  intros Hlow.
  pose proof (Escapes.check_below_spec _ _ encode_char_reads_below c Hlow)
    as Hok.
  unfold encode_char_reads in Hok.
  destruct (encode_char c) as [|a [|b [|u [|x2 [|x1 [|x0 [|? ?]]]]]]];
    try discriminate Hok.
  - left. rewrite !andb_true_iff, !negb_true_iff in Hok.
    destruct Hok as (((Ha & H32) & Hq) & Hb).
    apply N.eqb_eq in Ha. subst a.
    apply N.leb_le in H32. apply N.eqb_neq in Hq, Hb. auto.
  - right. left. rewrite !andb_true_iff, negb_true_iff in Hok.
    destruct Hok as ((Ha & Hb) & Hx).
    apply N.eqb_eq in Ha. subst a. apply N.eqb_neq in Hb.
    destruct (backslash b) as [x|] eqn:Hun; [|discriminate Hx].
    apply N.eqb_eq in Hx. subst x. exists b. auto.
  - right. right. rewrite !andb_true_iff in Hok.
    destruct Hok as ((Ha & Hb) & Hx).
    apply N.eqb_eq in Ha, Hb. subst a b.
    destruct (hex4 u x2 x1 x0) as [m|] eqn:Hun; [|discriminate Hx].
    apply N.eqb_eq in Hx. subst m. exists u, x2, x1, x0. auto.
Qed.

(** What the reader makes of one encoded code point that is not a high
    surrogate: one code point, the same one when it is a scalar value. *)
Lemma scan_encode_char_any (c : N) (t : pystr) :
  c < 55296 \/ 56320 <= c ->
  exists c',
    scanstring (encode_char c ++ t) = push c' (scanstring t)
    /\ (scalar c -> c' = c).
Proof.
  intros Hc.
  destruct (N.lt_ge_cases c 127) as [Hlow | Hmid];
    [|destruct (N.lt_ge_cases c 65536) as [Hbmp | Hastral]].
  - exists c. split; [|trivial].
    destruct (encode_char_low_shape c Hlow)
      as [(-> & H32 & Hq & Hb)
         | [(e & -> & He & Hx) | (x3 & x2 & x1 & x0 & -> & Hx)]].
    + now apply scan_plain.
    + now apply scan_short.
    + apply scan_u; [exact Hx | lia].
  - exists c. split; [|trivial].
    rewrite Escapes.encode_char_u_escape by lia.
    destruct (u_escape_reads c Hbmp) as (x3 & x2 & x1 & x0 & -> & Hx).
    now apply scan_u.
  - exists (65536 + ((high_surrogate c - 55296) * 1024
                     + (low_surrogate c - 56320))).
    rewrite Escapes.encode_char_astral by exact Hastral.
    pose proof (Escapes.high_surrogate_range c) as Hh.
    pose proof (Escapes.low_surrogate_range c) as Hl.
    destruct (u_escape_reads (high_surrogate c))
      as (x3 & x2 & x1 & x0 & -> & Hx); [lia|].
    destruct (u_escape_reads (low_surrogate c))
      as (y3 & y2 & y1 & y0 & -> & Hy); [lia|].
    split.
    + cbn [app]. exact (scan_pair _ _ _ _ _ _ _ _ _ _ t Hx Hh Hy Hl).
    + intros Hs. apply Escapes.surrogates_recombine.
      destruct Hs as [Hs | Hs]; lia.
Qed.

Lemma scan_encode_char (c : N) (t : pystr) :
  scalar c -> scanstring (encode_char c ++ t) = push c (scanstring t).
Proof.
  intros Hc.
  destruct (scan_encode_char_any c t) as (c' & Hscan & Hsame).
  - destruct Hc as [Hc | Hc]; lia.
  - now rewrite Hscan, (Hsame Hc).
Qed.

(** The escaped form of a string of scalar values, closed by a quote, is
    read back as that string, and the reader stops after that quote. *)
Lemma scan_encode (s rest : pystr) :
  Forall scalar s ->
  scanstring (flat_map encode_char s ++ QUOTE :: rest) = Some (s, rest).
Proof.
  induction 1 as [|c s Hc Hs IH]; [reflexivity|].
  cbn [flat_map]. rewrite <- app_assoc.
  rewrite (scan_encode_char c _ Hc), IH. reflexivity.
Qed.

(** No code point but a low surrogate is written as the escape of a low
    surrogate, and neither is the closing quote. *)
Lemma encode_char_not_low (d : N) (t : pystr) :
  d < 56320 \/ 57344 <= d ->
  forall y3 y2 y1 y0 r m,
    encode_char d ++ t = BACKSLASH :: 117 :: y3 :: y2 :: y1 :: y0 :: r ->
    hex4 y3 y2 y1 y0 = Some m -> m < 56320 \/ 57344 <= m.
Proof.
  intros Hd y3 y2 y1 y0 r m Heq Hm.
  destruct (N.lt_ge_cases d 127) as [Hlow | Hmid];
    [|destruct (N.lt_ge_cases d 65536) as [Hbmp | Hastral]].
  - destruct (encode_char_low_shape d Hlow)
      as [(He & H32 & Hq & Hb)
         | [(e & He & Hne & Hx) | (x3 & x2 & x1 & x0 & He & Hx)]];
      rewrite He in Heq; cbn [app] in Heq; inversion Heq; subst.
    + contradiction.
    + contradiction.
    + rewrite Hx in Hm. inversion Hm. subst. lia.
  - rewrite Escapes.encode_char_u_escape in Heq by lia.
    destruct (u_escape_reads d Hbmp) as (x3 & x2 & x1 & x0 & He & Hx).
    rewrite He in Heq. cbn [app] in Heq. inversion Heq; subst.
    rewrite Hx in Hm. inversion Hm. subst. exact Hd.
  - rewrite Escapes.encode_char_astral in Heq by exact Hastral.
    pose proof (Escapes.high_surrogate_range d) as Hh.
    destruct (u_escape_reads (high_surrogate d))
      as (x3 & x2 & x1 & x0 & He & Hx); [lia|].
    rewrite He in Heq. cbn [app] in Heq. inversion Heq; subst.
    rewrite Hx in Hm. inversion Hm. subst. lia.
Qed.

(** Whatever the string, its escaped form closed by a quote is read as
    one string that ends at that quote: the encoder writes no bare quote
    and no backslash that is not the start of an escape. *)
Lemma scan_encode_total (s rest : pystr) :
  exists s',
    scanstring (flat_map encode_char s ++ QUOTE :: rest) = Some (s', rest).
Proof.
  remember (List.length s) as n eqn:Hn. revert s Hn.
  induction n as [n IH] using lt_wf_ind. intros s Hn.
  destruct s as [|c s1]; [exists []; reflexivity|].
  cbn [flat_map]. rewrite <- app_assoc.
  destruct (N.lt_ge_cases c 55296) as [Hc | Hc];
    [|destruct (N.lt_ge_cases c 56320) as [Hhigh | Hc']].
  - destruct (scan_encode_char_any c (flat_map encode_char s1 ++ QUOTE :: rest))
      as (c' & -> & _); [lia|].
    destruct (IH (List.length s1)) with (s := s1) as [s' ->];
      [subst n; cbn [List.length]; lia | reflexivity |].
    exists (c' :: s'). reflexivity.
  - (* a high surrogate *)
    rewrite Escapes.encode_char_u_escape by lia.
    destruct (u_escape_reads c) as (x3 & x2 & x1 & x0 & -> & Hx); [lia|].
    cbn [app].
    destruct s1 as [|d s2].
    + rewrite (scan_high_alone c _ _ _ _ _ Hx).
      * exists [c]. reflexivity.
      * intros y3 y2 y1 y0 r m Heq. discriminate Heq.
    + destruct (N.lt_ge_cases d 56320) as [Hd | Hd];
        [|destruct (N.lt_ge_cases d 57344) as [Hlow | Hd']].
      * rewrite (scan_high_alone c _ _ _ _ _ Hx).
        -- destruct (IH (List.length (d :: s2))) with (s := d :: s2) as [s' ->];
             [subst n; cbn [List.length]; lia | reflexivity |].
           exists (c :: s'). reflexivity.
        -- cbn [flat_map]. rewrite <- app_assoc.
           apply encode_char_not_low. now left.
      * (* followed by a low surrogate: the reader takes the two as one *)
        cbn [flat_map]. rewrite <- app_assoc.
        rewrite Escapes.encode_char_u_escape by lia.
        destruct (u_escape_reads d) as (y3 & y2 & y1 & y0 & -> & Hy); [lia|].
        cbn [app].
        rewrite (scan_pair c d _ _ _ _ _ _ _ _ _ Hx (conj Hc Hhigh)
                           Hy (conj Hd Hlow)).
        destruct (IH (List.length s2)) with (s := s2) as [s' ->];
          [subst n; cbn [List.length]; lia | reflexivity |].
        eexists. reflexivity.
      * rewrite (scan_high_alone c _ _ _ _ _ Hx).
        -- destruct (IH (List.length (d :: s2))) with (s := d :: s2) as [s' ->];
             [subst n; cbn [List.length]; lia | reflexivity |].
           exists (c :: s'). reflexivity.
        -- cbn [flat_map]. rewrite <- app_assoc.
           apply encode_char_not_low. now right.
  - destruct (scan_encode_char_any c (flat_map encode_char s1 ++ QUOTE :: rest))
      as (c' & -> & _); [lia|].
    destruct (IH (List.length s1)) with (s := s1) as [s' ->];
      [subst n; cbn [List.length]; lia | reflexivity |].
    exists (c' :: s'). reflexivity.
Qed.

End ReaderFacts.

(** ** The printed line, read as an object *)

(** The printed line: the two keys, the literal [false], the escaped
    message between quotes, the closing brace and the newline of
    [print]. *)
Lemma printed_line_text (v : list pystr) (w : world) :
  v <> [] ->
  out (run (script v) w)
  = (lit "{" ++ [QUOTE] ++ lit "continue" ++ [QUOTE] ++ lit ": false, "
     ++ [QUOTE] ++ lit "stopReason" ++ [QUOTE] ++ lit ": " ++ [QUOTE])
    ++ flat_map Json.encode_char (stop_reason v)
    ++ QUOTE :: lit "}" ++ [NEWLINE].
Proof.
  intros Hv. rewrite (run_nonempty w v Hv). cbn [out].
  rewrite dumps_response_text. now rewrite <- !app_assoc.
Qed.

(** A line of that form is read as an object of two members, [continue]
    with the value [false] and [stopReason] with the string its text
    between the quotes is read as. *)
Lemma loads_two_members (escaped s : pystr) :
  Reader.scanstring (escaped ++ QUOTE :: lit "}" ++ [NEWLINE])
  = Some (s, lit "}" ++ [NEWLINE]) ->
  Reader.loads
    ((lit "{" ++ [QUOTE] ++ lit "continue" ++ [QUOTE] ++ lit ": false, "
      ++ [QUOTE] ++ lit "stopReason" ++ [QUOTE] ++ lit ": " ++ [QUOTE])
     ++ escaped ++ QUOTE :: lit "}" ++ [NEWLINE])
  = Some (PyDict [ (lit "continue", PyBool false);
                   (lit "stopReason", PyStr s) ]).
Proof.
  intros Hscan. unfold Reader.loads.
  cbn. cbn in Hscan. rewrite Hscan. reflexivity.
Qed.

(** ** The lines of a message *)






(** * The claims *)

(** C1: for every issues list the script ends by [sys.exit]: with status
    2 when the list is not empty and with status 0 when it is empty.  It
    never runs off its last line and never ends by another exception, so
    there is no other exit path. *)
Theorem exit_status_by_emptiness (v : list pystr) (w : world) :
  fst (script v (start w))
  = Raised (SystemExit (match v with [] => 0 | _ :: _ => 2 end))
  /\ status (run (script v) w) = (match v with [] => 0 | _ :: _ => 2 end)%Z.
Proof.
  run_cases v w.
  - (* the empty list: line 14 *)
    split; reflexivity.
  - (* a list with a first element: lines 7 to 12 *)
    split; reflexivity.
Qed.

(** C4: with an empty issues list the run ends with status 0 and writes
    nothing to standard output; whatever the list, standard output is
    written only by a run that blocks (status 2). *)
Theorem allow_is_silent (w : world) :
  status (run (script []) w) = 0%Z
  /\ out (run (script []) w) = []
  /\ forall v, out (run (script v) w) <> [] -> status (run (script v) w) = 2%Z.
Proof.
  rewrite run_empty. repeat split.
  intros v Hout. apply out_nonempty_inv in Hout.
  now rewrite (run_nonempty w v Hout).
Qed.

(** C6: every run ends with status 2 (block, with the payload on standard
    output) or with status 0 (allow, with nothing on standard output) and
    with no other status; nothing is written to standard error and the
    world outside the process is left as it was, so the outcome shows in
    the exit status and standard output alone. *)
Theorem exit_status_two_valued (v : list pystr) (w : world) :
  ((status (run (script v) w) = 2%Z /\ out (run (script v) w) <> [])
   \/ (status (run (script v) w) = 0%Z /\ out (run (script v) w) = []))
  /\ err (run (script v) w) = []
  /\ left_behind (run (script v) w) = w.
Proof.
  destruct v as [|i v].
  - rewrite run_empty. split; [right; split; reflexivity | split; reflexivity].
  - assert (Hv : i :: v <> []) by discriminate.
    split.
    + left. split; [now rewrite (run_nonempty w _ Hv) | now apply out_nonempty].
    + rewrite (run_nonempty w _ Hv). split; reflexivity.
Qed.

(** C7: the module reads nothing of the world it starts in and leaves
    nothing behind: two runs in any two worlds write the same standard
    output and standard error and end with the same status, the world is
    handed back unchanged, and a second run after the first repeats it. *)
Theorem runs_agree (w1 w2 : world) :
  out (run hello w1) = out (run hello w2)
  /\ status (run hello w1) = status (run hello w2)
  /\ err (run hello w1) = err (run hello w2)
  /\ left_behind (run hello w1) = w1
  /\ run hello (left_behind (run hello w1)) = run hello w1.
Proof.
  unfold hello.
  destruct (run_world_independent issues w1 w2) as (Hs & Ho & He).
  split; [exact Ho|]. split; [exact Hs|]. split; [exact He|].
  split.
  - apply run_leaves_world.
  - now rewrite run_leaves_world.
Qed.

(** C8: the module as it stands binds a list that is not empty, so every
    run prints the payload line, ends with status 2, and never reaches
    [sys.exit(0)]. *)
Theorem hello_always_blocks (w : world) :
  run hello w = mkOutcome 2 blocked_line [] w
  /\ fst (hello (start w)) = Raised (SystemExit 2)
  /\ fst (hello (start w)) <> Raised (SystemExit 0).
Proof.
  assert (Hv : issues <> []) by discriminate.
  unfold hello. rewrite (run_nonempty w _ Hv), (script_nonempty w _ Hv).
  split; [|split].
  - vm_compute. reflexivity.
  - reflexivity.
  - cbn [fst]. intros H. inversion H.
Qed.

(** C5: the list bound to [issues] is the two literal strings
    [Issue 1] and [Issue 2] (given here by their code points), every
    statement after the binding leaves the global as it found it from any
    state, and at the end of a run the global still holds that list. *)
Theorem issues_fixed (w : world) :
  issues = [[73; 115; 115; 117; 101; 32; 49]; [73; 115; 115; 117; 101; 32; 50]]
  /\ keeps_issues body
  /\ g_issues (snd (hello (start w))) = Some issues.
Proof.
  split; [reflexivity|]. split; [apply keeps_issues_body|].
  unfold hello. now rewrite script_nonempty by discriminate.
Qed.








(** C10: whenever the payload is printed, the line on standard output,
    read as JSON, is an object with exactly two members, [continue] and
    [stopReason] in that order; the value read for [continue] is [false]
    and the one read for [stopReason] is a string.  This holds for every
    issues list.  The line is the encoding of the dictionary bound to
    [response], which has those two keys with [continue] bound to
    [False], and when the issues are strings of Unicode scalar values
    the object read from the line is that dictionary. *)
Theorem payload_shape (v : list pystr) (w : world) :
  out (run (script v) w) <> [] ->
  exists items read : list (pystr * pyval),
    Reader.loads (out (run (script v) w)) = Some (PyDict read)
    /\ dict_keys read = [lit "continue"; lit "stopReason"]
    /\ dict_get read (lit "continue") = Some (PyBool false)
    /\ (exists text, dict_get read (lit "stopReason") = Some (PyStr text))
    /\ g_response (snd (script v (start w))) = Some (PyDict items)
    /\ out (run (script v) w) = Json.dumps (PyDict items) ++ [NEWLINE]
    /\ dict_keys items = [lit "continue"; lit "stopReason"]
    /\ dict_get items (lit "continue") = Some (PyBool false)
    /\ (exists msg, dict_get items (lit "stopReason") = Some (PyStr msg))
    /\ (Forall (Forall scalar) v -> read = items).
Proof.
  intros Hout. apply out_nonempty_inv in Hout.
  destruct (ReaderFacts.scan_encode_total (stop_reason v)
              (lit "}" ++ [NEWLINE])) as [text Htext].
  exists [ (lit "continue", PyBool false);
           (lit "stopReason", PyStr (stop_reason v)) ],
         [ (lit "continue", PyBool false); (lit "stopReason", PyStr text) ].
  split.
  { rewrite (printed_line_text v w Hout). now apply loads_two_members. }
  split; [reflexivity|]. split; [reflexivity|].
  split; [exists text; reflexivity|].
  split; [now rewrite (script_nonempty w v Hout)|].
  split; [now rewrite (run_nonempty w v Hout)|].
  split; [reflexivity|]. split; [reflexivity|].
  split; [exists (stop_reason v); reflexivity|].
  intros Hs.
  rewrite (ReaderFacts.scan_encode _ _ (stop_reason_scalar v Hs)) in Htext.
  now inversion Htext.
Qed.

Lemma payload_shape_witness :
  out (run (script issues) empty_world) <> []
  /\ exists items read : list (pystr * pyval),
       Reader.loads (out (run (script issues) empty_world))
       = Some (PyDict read)
       /\ dict_keys read = [lit "continue"; lit "stopReason"]
       /\ dict_get read (lit "continue") = Some (PyBool false)
       /\ (exists text, dict_get read (lit "stopReason") = Some (PyStr text))
       /\ g_response (snd (script issues (start empty_world)))
          = Some (PyDict items)
       /\ out (run (script issues) empty_world)
          = Json.dumps (PyDict items) ++ [NEWLINE]
       /\ dict_keys items = [lit "continue"; lit "stopReason"]
       /\ dict_get items (lit "continue") = Some (PyBool false)
       /\ (exists msg, dict_get items (lit "stopReason") = Some (PyStr msg))
       /\ (Forall (Forall scalar) issues -> read = items).
Proof.
  assert (H : out (run (script issues) empty_world) <> []).
  { vm_compute. discriminate. }
  split; [exact H | exact (payload_shape issues empty_world H)].
Defined.

(** * Further properties of the script *)

(** ** The message and its lines *)

Lemma join_app (sep : pystr) (xs ys : list pystr) :
  xs <> [] -> ys <> [] ->
  join sep (xs ++ ys) = join sep xs ++ sep ++ join sep ys.
Proof.
  intros Hxs Hys. destruct xs as [|x xs]; [congruence|]. clear Hxs.
  revert x. induction xs as [|x' xs IH]; intros x.
  - destruct ys as [|y ys]; [congruence | reflexivity].
  - rewrite <- !app_comm_cons, !join_cons2.
    rewrite app_comm_cons, IH.
    now rewrite <- !app_assoc.
Qed.

(** Two texts cut at their first newline agree part by part. *)
Lemma cut_at_newline (x y r1 r2 : pystr) :
  ~ In NEWLINE x -> ~ In NEWLINE y ->
  x ++ NEWLINE :: r1 = y ++ NEWLINE :: r2 -> x = y /\ r1 = r2.
Proof.
  revert y. induction x as [|a x IH]; intros [|b y] Hx Hy Heq.
  - now inversion Heq.
  - inversion Heq. subst b. exfalso. apply Hy. now left.
  - inversion Heq. subst a. exfalso. apply Hx. now left.
  - inversion Heq. subst b.
    destruct (IH y) as [-> ->]; try assumption; auto.
    + intros H. apply Hx. now right.
    + intros H. apply Hy. now right.
Qed.

Lemma join_newline_inj (xs ys : list pystr) :
  Forall (fun x => x <> [] /\ ~ In NEWLINE x) xs ->
  Forall (fun y => y <> [] /\ ~ In NEWLINE y) ys ->
  join [NEWLINE] xs = join [NEWLINE] ys -> xs = ys.
Proof.
  intros Hxs. revert ys.
  induction Hxs as [|x xs [Hx0 Hx] Hrest IH]; intros ys Hys Heq.
  - destruct Hys as [|y ys [Hy0 _] _]; [reflexivity|].
    exfalso. destruct ys; simpl in Heq; [congruence|].
    symmetry in Heq. apply app_eq_nil in Heq. tauto.
  - destruct Hys as [|y ys [Hy0 Hy] Hys].
    { exfalso. destruct xs; simpl in Heq; [congruence|].
      apply app_eq_nil in Heq. tauto. }
    destruct xs as [|x' xs], ys as [|y' ys].
    + simpl in Heq. now subst.
    + exfalso. apply Hx. rewrite join_cons2 in Heq. simpl in Heq.
      rewrite Heq. apply in_or_app. right. now left.
    + exfalso. apply Hy. rewrite join_cons2 in Heq. simpl in Heq.
      rewrite <- Heq. apply in_or_app. right. now left.
    + rewrite !join_cons2 in Heq.
      destruct (cut_at_newline _ _ _ _ Hx Hy Heq) as [-> Htail].
      f_equal. now apply IH.
Qed.

Lemma bullet_line (i : pystr) :
  ~ In NEWLINE i -> bullet i <> [] /\ ~ In NEWLINE (bullet i).
Proof.
  intros Hi. split; [discriminate|].
  intros [H | [H | H]]; [discriminate H | discriminate H | exact (Hi H)].
Qed.

Lemma bullet_lines (v : list pystr) :
  Forall (fun i => ~ In NEWLINE i) v ->
  Forall (fun x => x <> [] /\ ~ In NEWLINE x) (map bullet v).
Proof.
  intros Hv. apply Forall_map. eapply Forall_impl; [|exact Hv].
  intros i. apply bullet_line.
Qed.

Lemma map_bullet_inj (v1 v2 : list pystr) :
  map bullet v1 = map bullet v2 -> v1 = v2.
Proof.
  revert v2. induction v1 as [|i v1 IH]; intros [|j v2] H;
    try discriminate H; [reflexivity|].
  inversion H. f_equal. now apply IH.
Qed.

Lemma count_join_newline (xs : list pystr) :
  Forall (fun x => ~ In NEWLINE x) xs ->
  count_occ N.eq_dec (join [NEWLINE] xs) NEWLINE = pred (List.length xs).
Proof.
  induction 1 as [|x xs Hx Hxs IH]; [reflexivity|].
  apply (count_occ_not_In N.eq_dec) in Hx.
  destruct xs as [|y xs]; [exact Hx|].
  rewrite join_cons2, !count_occ_app, Hx. unfold pystr in *.
  rewrite IH. reflexivity.
Qed.

(** X1: the message of line 9 names its issues without loss when no
    issue contains a newline: two such lists with the same message are
    the same list, element by element and in the same order. *)
Theorem message_determines_issues (v1 v2 : list pystr) :
  Forall (fun i => ~ In NEWLINE i) v1 ->
  Forall (fun i => ~ In NEWLINE i) v2 ->
  stop_reason v1 = stop_reason v2 -> v1 = v2.
Proof.
  intros H1 H2 Heq. unfold stop_reason in Heq.
  apply app_inv_head in Heq.
  apply map_bullet_inj, join_newline_inj; auto using bullet_lines.
Qed.

Lemma message_determines_issues_witness :
  Forall (fun i => ~ In NEWLINE i) issues
  /\ stop_reason issues = stop_reason [lit "Issue 1"; lit "Issue 2"]
  /\ issues = [lit "Issue 1"; lit "Issue 2"].
Proof.
  assert (H : Forall (fun i => ~ In NEWLINE i) issues).
  { repeat constructor; apply (count_occ_not_In N.eq_dec); reflexivity. }
  split; [exact H|]. split; [reflexivity|].
  exact (message_determines_issues issues _ H H eq_refl).
Defined.

(** X2: the f-string of line 9 copies an issue as it is, so a newline
    inside an issue starts a new line of the message: an issue that
    holds a newline followed by a bullet line gives the very message that
    two separate issues give, although the two lists differ. *)
Theorem newline_in_issue_is_ambiguous (a b : pystr) (rest : list pystr) :
  stop_reason ((a ++ [NEWLINE] ++ bullet b) :: rest)
  = stop_reason (a :: b :: rest)
  /\ (a ++ [NEWLINE] ++ bullet b) :: rest <> a :: b :: rest.
Proof.
  split.
  - unfold stop_reason. f_equal.
    change (map bullet (a :: b :: rest))
      with (bullet a :: bullet b :: map bullet rest).
    change (map bullet ((a ++ [NEWLINE] ++ bullet b) :: rest))
      with (bullet (a ++ [NEWLINE] ++ bullet b) :: map bullet rest).
    assert (Hb : bullet (a ++ [NEWLINE] ++ bullet b)
                 = bullet a ++ [NEWLINE] ++ bullet b).
    { unfold bullet. now rewrite <- !app_assoc. }
    rewrite Hb, (join_cons2 _ (bullet a)).
    destruct (map bullet rest) as [|c r].
    + reflexivity.
    + rewrite !join_cons2. now rewrite <- !app_assoc.
  - intros H. apply (f_equal (@List.length pystr)) in H.
    simpl in H. lia.
Qed.

(** X3: when no issue contains a newline, the message of line 9 has one
    newline for the title and one between consecutive bullet lines: as
    many newlines as there are issues, and one for the empty list. *)
Theorem message_line_count (v : list pystr) :
  Forall (fun i => ~ In NEWLINE i) v ->
  count_occ N.eq_dec (stop_reason v) NEWLINE = Nat.max 1 (List.length v).
Proof.
  intros Hv. rewrite stop_reason_title, !count_occ_app.
  rewrite count_join_newline.
  - rewrite length_map.
    change (count_occ N.eq_dec title NEWLINE) with 0%nat.
    change (count_occ N.eq_dec [NEWLINE] NEWLINE) with 1%nat.
    destruct v; simpl; lia.
  - eapply Forall_impl; [|exact (bullet_lines v Hv)]. now intros x [_ Hx].
Qed.

Lemma message_line_count_witness :
  Forall (fun i => ~ In NEWLINE i) issues
  /\ count_occ N.eq_dec (stop_reason issues) NEWLINE = 2%nat.
Proof.
  assert (H : Forall (fun i => ~ In NEWLINE i) issues).
  { repeat constructor; apply (count_occ_not_In N.eq_dec); reflexivity. }
  split; [exact H | exact (message_line_count issues H)].
Defined.

(** X4: issues added at the end of the list only add lines at the end of
    the message: the message for [v1 ++ v2] is the message for [v1], a
    newline, and the bullet lines of [v2]. *)
Theorem message_grows_by_appending (v1 v2 : list pystr) :
  v1 <> [] -> v2 <> [] ->
  stop_reason (v1 ++ v2)
  = stop_reason v1 ++ [NEWLINE] ++ join [NEWLINE] (map bullet v2).
Proof.
  intros H1 H2. unfold stop_reason.
  rewrite map_app, join_app.
  - now rewrite <- !app_assoc.
  - destruct v1; [congruence | discriminate].
  - destruct v2; [congruence | discriminate].
Qed.

Lemma message_grows_by_appending_witness :
  [lit "Issue 1"] <> [] /\ [lit "Issue 2"] <> []
  /\ stop_reason ([lit "Issue 1"] ++ [lit "Issue 2"])
     = stop_reason [lit "Issue 1"] ++ [NEWLINE]
       ++ join [NEWLINE] (map bullet [lit "Issue 2"]).
Proof.
  split; [discriminate|]. split; [discriminate|].
  apply (message_grows_by_appending [lit "Issue 1"] [lit "Issue 2"]);
    discriminate.
Defined.


(** ** What the printed line tells its reader *)

(** X5: on strings of Unicode scalar values the string encoding of
    [json.dumps] is one to one: two such strings that are written as the
    same JSON text are the same string. *)
Theorem escaping_injective (s1 s2 : pystr) :
  Forall scalar s1 -> Forall scalar s2 ->
  Json.dumps (PyStr s1) = Json.dumps (PyStr s2) -> s1 = s2.
Proof.
  intros H1 H2 Heq. cbn [Json.dumps] in Heq.
  unfold Json.encode_basestring_ascii in Heq.
  apply app_inv_head, app_inv_tail in Heq.
  now apply Escapes.flat_map_encode_inj.
Qed.

Lemma escaping_injective_witness :
  Forall scalar (stop_reason issues)
  /\ Json.dumps (PyStr (stop_reason issues))
     = Json.dumps (PyStr (stop_reason [lit "Issue 1"; lit "Issue 2"]))
  /\ stop_reason issues = stop_reason [lit "Issue 1"; lit "Issue 2"].
Proof.
  assert (H : Forall scalar (stop_reason issues)).
  { apply scalar_forallb. reflexivity. }
  split; [exact H|]. split; [reflexivity|].
  exact (escaping_injective _ _ H H eq_refl).
Defined.

(** X6: the line on standard output identifies the issues.  For lists of
    issues made of Unicode scalar values and free of newlines, two runs
    that write the same standard output were given the same list. *)
Theorem line_identifies_issues (v1 v2 : list pystr) (w1 w2 : world) :
  Forall (Forall scalar) v1 -> Forall (Forall scalar) v2 ->
  Forall (fun i => ~ In NEWLINE i) v1 ->
  Forall (fun i => ~ In NEWLINE i) v2 ->
  out (run (script v1) w1) = out (run (script v2) w2) ->
  v1 = v2.
Proof.
  intros Hs1 Hs2 Hn1 Hn2 Hout.
  destruct v1 as [|i1 v1], v2 as [|i2 v2].
  - reflexivity.
  - exfalso. rewrite run_empty in Hout. symmetry in Hout.
    revert Hout. apply out_nonempty. discriminate.
  - exfalso. rewrite run_empty in Hout.
    revert Hout. apply out_nonempty. discriminate.
  - rewrite !run_nonempty in Hout by discriminate. cbn [out] in Hout.
    apply app_inv_tail in Hout.
    rewrite !dumps_response_text in Hout.
    apply app_inv_head, app_inv_tail in Hout.
    apply Escapes.flat_map_encode_inj in Hout;
      try (apply stop_reason_scalar; assumption).
    now apply message_determines_issues.
Qed.

Lemma line_identifies_issues_witness :
  Forall (Forall scalar) issues
  /\ Forall (fun i => ~ In NEWLINE i) issues
  /\ out (run (script issues) empty_world)
     = out (run (script [lit "Issue 1"; lit "Issue 2"]) empty_world)
  /\ issues = [lit "Issue 1"; lit "Issue 2"].
Proof.
  assert (Hs : Forall (Forall scalar) issues).
  { repeat constructor; apply scalar_forallb; reflexivity. }
  assert (Hn : Forall (fun i => ~ In NEWLINE i) issues).
  { repeat constructor; apply (count_occ_not_In N.eq_dec); reflexivity. }
  split; [exact Hs|]. split; [exact Hn|]. split; [reflexivity|].
  exact (line_identifies_issues issues _ empty_world empty_world
           Hs Hs Hn Hn eq_refl).
Defined.

(** X7: a code point above U+FFFF is written by [json.dumps] as the two
    escapes of its surrogates, which is also how the two-character string
    of those surrogates is written: outside the scalar values the string
    encoding is not one to one. *)
Theorem astral_written_as_surrogates (c : N) :
  65536 <= c ->
  Json.dumps (PyStr [c])
  = Json.dumps (PyStr [high_surrogate c; low_surrogate c])
  /\ [c] <> [high_surrogate c; low_surrogate c].
Proof.
  intros Hc. split; [|discriminate].
  cbn [Json.dumps]. unfold Json.encode_basestring_ascii. do 2 f_equal.
  cbn [flat_map]. rewrite !app_nil_r.
  pose proof (Escapes.high_surrogate_range c) as Hh.
  pose proof (Escapes.low_surrogate_range c) as Hl.
  rewrite (Escapes.encode_char_astral c Hc).
  now rewrite !Escapes.encode_char_u_escape by lia.
Qed.

Lemma astral_written_as_surrogates_witness :
  65536 <= 128512
  /\ Json.dumps (PyStr [128512]) = Json.dumps (PyStr [55357; 56832]).
Proof.
  split; [discriminate|].
  exact (proj1 (astral_written_as_surrogates 128512 ltac:(discriminate))).
Defined.

(** X8: an issue made only of characters that need no escape (printable
    ASCII other than the quote and the backslash) stands in the printed
    line letter for letter, after the escaped bullet and a space. *)
Theorem plain_issue_verbatim (v : list pystr) (i : pystr) (w : world) :
  In i v ->
  Forall (fun c => Json.needs_escape c = false) i ->
  exists pre post,
    out (run (script v) w) = pre ++ lit "\u2022 " ++ i ++ post.
Proof.
  intros Hi Hplain.
  assert (Hv : v <> []) by (intros ->; exact Hi).
  destruct (stop_reason_lists v i Hi) as (pre & post & Hmsg & _).
  assert (Hbullet : flat_map Json.encode_char (bullet i) = lit "\u2022 " ++ i).
  { unfold bullet. rewrite !JsonFacts.flat_map_encode_app.
    rewrite (Escapes.encode_char_plain i Hplain). reflexivity. }
  rewrite (run_nonempty w v Hv). cbn [out].
  rewrite dumps_response_text, Hmsg.
  rewrite !JsonFacts.flat_map_encode_app, Hbullet.
  set (open := lit "{" ++ [QUOTE] ++ lit "continue" ++ [QUOTE]
               ++ lit ": false, " ++ [QUOTE] ++ lit "stopReason" ++ [QUOTE]
               ++ lit ": " ++ [QUOTE]).
  exists (open ++ flat_map Json.encode_char pre
               ++ flat_map Json.encode_char [NEWLINE]),
         (flat_map Json.encode_char post ++ [QUOTE] ++ lit "}" ++ [NEWLINE]).
  now rewrite <- !app_assoc.
Qed.

Lemma plain_issue_verbatim_witness :
  In (lit "Issue 1") issues
  /\ Forall (fun c => Json.needs_escape c = false) (lit "Issue 1")
  /\ exists pre post,
       out (run (script issues) empty_world)
       = pre ++ lit "\u2022 " ++ lit "Issue 1" ++ post.
Proof.
  assert (Hi : In (lit "Issue 1") issues) by (left; reflexivity).
  assert (Hp : Forall (fun c => Json.needs_escape c = false) (lit "Issue 1")).
  { repeat constructor. }
  split; [exact Hi|]. split; [exact Hp|].
  exact (plain_issue_verbatim issues (lit "Issue 1") empty_world Hi Hp).
Defined.
